(** * SeoAuditAi front end: the audit form's submit handler and [formatResults]

    A shallow embedding of [src/frontend/script.js].  The script has two
    parts: an asynchronous submit handler that reads the input field,
    writes the submit button and the result container and performs one
    [fetch], and the function [formatResults] that turns the parsed
    response into markup.

    - JavaScript values are the values [JSON.parse] can produce, plus
      [undefined] for absent properties.
    - Code that can throw returns a [Result]; the handler runs in a monad
      that threads the page and a trace of the handler's effects and that
      distinguishes normal completion, a thrown error, and suspension at an
      [await] whose promise never settles.
    - Strings are Rocq strings, read as the UTF-8 encoding of well-formed
      text.  The script concatenates strings, tests them for emptiness and
      quotes one as JSON, which escapes ASCII characters only; all three
      agree with JavaScript's strings of UTF-16 code units. *)

From Stdlib Require Import String Ascii List Bool Arith Lia.
From Stdlib Require Import DecimalString DecimalNat.
From ExtLib Require Import Structures.Monad.
Import ListNotations.
Import MonadNotation.
Open Scope string_scope.
Open Scope monad_scope.

Local Set Warnings "-register-all".

(** ** Values *)

(** A Number is represented by its canonical rendering (the result of
    [Number::toString]): the script observes a number only through that
    rendering and through its truthiness, and a number is falsy exactly
    when it renders as [0] (either zero) or [NaN]. *)
Inductive JsValue : Type :=
| JsUndefined
| JsNull
| JsBool (b : bool)
| JsNumber (repr : string)
| JsString (s : string)
| JsArray (items : list JsValue)
| JsObject (props : list (string * JsValue)).

(** Only the [message] of a caught error is read (line 33). *)
Record JsError : Type := mkError { error_name : string; message : string }.

Inductive Result (A : Type) : Type :=
| Ok (a : A)
| Raise (e : JsError).
Arguments Ok {A} a.
Arguments Raise {A} e.

#[export] Instance Monad_Result : Monad Result :=
  {| ret := fun _ a => Ok a;
     bind := fun _ _ c k => match c with Ok a => k a | Raise e => Raise e end |}.

(** The faults the engine itself raises as a [TypeError] while the script
    runs.  The text of their messages is chosen by the engine. *)
Inductive Fault : Type :=
| ReadOfNullish (base : JsValue) (prop : string)
| NotAFunction (base : JsValue) (prop : string)
| NoPrimitive (v : JsValue).

Definition quot : string := String "034"%char EmptyString.
Definition backslash : string := String "092"%char EmptyString.

Definition string_of_nat (n : nat) : string :=
  NilEmpty.string_of_uint (Nat.to_uint n).

Definition ToBoolean (v : JsValue) : bool :=
  match v with
  | JsUndefined | JsNull => false
  | JsBool b => b
  | JsNumber repr => negb ((repr =? "0") || (repr =? "NaN"))
  | JsString s => negb (s =? EmptyString)
  | JsArray _ | JsObject _ => true
  end.

Fixpoint own_property (props : list (string * JsValue)) (name : string)
  : option JsValue :=
  match props with
  | [] => None
  | (k, v) :: rest => if k =? name then Some v else own_property rest name
  end.

(** [v === text] for a string literal [text]. *)
Definition strict_equals (v : JsValue) (text : string) : bool :=
  match v with
  | JsString s => s =? text
  | _ => false
  end.

(** [JSON.parse] leaves no hole in an array and turns [undefined] and
    [null] elements of a joined array into the empty string. *)
Definition is_nullish (v : JsValue) : bool :=
  match v with
  | JsUndefined | JsNull => true
  | _ => false
  end.

(** The shape the response schema gives to [errors] and to [warnings]:
    absent, or an array of strings. *)
Definition is_string (v : JsValue) : bool :=
  match v with
  | JsString _ => true
  | _ => false
  end.

Definition strings_or_absent (v : JsValue) : bool :=
  match v with
  | JsUndefined => true
  | JsArray items => forallb is_string items
  | _ => false
  end.

(** ** Markup *)

Definition heading : string := "<h3>Audit Results</h3>".
Definition list_open : string :=
  "<ul class=" ++ quot ++ "list-group mb-3" ++ quot ++ ">".
Definition errors_open : string := "<h4>Errors</h4>" ++ list_open.
Definition warnings_open : string := "<h4>Warnings</h4>" ++ list_open.
Definition list_close : string := "</ul>".
Definition list_item (text : string) : string :=
  "<li class=" ++ quot ++ "list-group-item" ++ quot ++ ">" ++ text ++ "</li>".
Definition no_issues : string :=
  "<div class=" ++ quot ++ "alert alert-success" ++ quot
    ++ ">No issues found!</div>".

Fixpoint list_items (texts : list string) : string :=
  match texts with
  | [] => EmptyString
  | text :: rest => list_item text ++ list_items rest
  end.

(** [text.includes(part)]. *)
Fixpoint includes (part text : string) : bool :=
  String.prefix part text
  || match text with
     | EmptyString => false
     | String _ rest => includes part rest
     end.

(** ** Reading values *)

Section Engine.

Variable fault_message : Fault -> string.

Definition TypeError (f : Fault) : JsError :=
  mkError "TypeError" (fault_message f).

(** [base.name], for the names the script reads: [status], [data],
    [message], [errors], [warnings] and [length].  None of them is
    defined on a built-in prototype; [length] is an own property of
    strings and arrays. *)
Definition Get (base : JsValue) (name : string) : Result JsValue :=
  match base with
  | JsUndefined | JsNull => Raise (TypeError (ReadOfNullish base name))
  | JsBool _ | JsNumber _ => Ok JsUndefined
  | JsString s =>
      if name =? "length" then Ok (JsNumber (string_of_nat (String.length s)))
      else Ok JsUndefined
  | JsArray items =>
      if name =? "length" then Ok (JsNumber (string_of_nat (List.length items)))
      else Ok JsUndefined
  | JsObject props =>
      match own_property props name with
      | Some v => Ok v
      | None => Ok JsUndefined
      end
  end.

(** [ToString], as a template literal applies it to [${...}].  An array
    is joined with commas.  An object parsed from JSON renders as
    [[object Object]] through [Object.prototype.toString], unless it has
    an own property [toString]: that property is JSON data, hence not
    callable, [valueOf] yields no primitive either, and the conversion
    throws. *)
Fixpoint ToString (v : JsValue) : Result string :=
  match v with
  | JsUndefined => Ok "undefined"
  | JsNull => Ok "null"
  | JsBool true => Ok "true"
  | JsBool false => Ok "false"
  | JsNumber repr => Ok repr
  | JsString s => Ok s
  | JsArray items =>
      (fix join (l : list JsValue) : Result string :=
         match l with
         | [] => Ok EmptyString
         | x :: rest =>
             sx <- (if is_nullish x then Ok EmptyString else ToString x) ;;
             match rest with
             | [] => Ok sx
             | _ :: _ => srest <- join rest ;; Ok (sx ++ "," ++ srest)
             end
         end) items
  | JsObject props =>
      match own_property props "toString" with
      | Some _ => Raise (TypeError (NoPrimitive v))
      | None => Ok "[object Object]"
      end
  end.

(** [array.forEach(callback)] where the callback updates a local
    variable of the caller, here the accumulator [acc]. *)
Fixpoint forEach_items {S : Type} (items : list JsValue)
    (callback : JsValue -> S -> Result S) (acc : S) : Result S :=
  match items with
  | [] => Ok acc
  | x :: rest => acc' <- callback x acc ;; forEach_items rest callback acc'
  end.

(** [base.forEach(callback)]: only arrays have a callable [forEach]. *)
Definition forEach {S : Type} (base : JsValue)
    (callback : JsValue -> S -> Result S) (acc : S) : Result S :=
  match base with
  | JsArray items => forEach_items items callback acc
  | _ => Raise (TypeError (NotAFunction base "forEach"))
  end.

(** [v && v.length], as a condition. *)
Definition present_and_nonempty (v : JsValue) : Result bool :=
  if ToBoolean v then len <- Get v "length" ;; Ok (ToBoolean len)
  else Ok false.

(** Lines 46-48 and 53-55: the callback appends one item to [html]. *)
Definition append_item (entry : JsValue) (html : string) : Result string :=
  text <- ToString entry ;; Ok (html ++ list_item text).

(** Lines 41-62. *)
Definition formatResults (data : JsValue) : Result string :=
  let html := heading in
  errors <- Get data "errors" ;;
  html <- (has_errors <- present_and_nonempty errors ;;
           if has_errors : bool then
             html <- forEach errors append_item (html ++ errors_open) ;;
             Ok (html ++ list_close)
           else Ok html) ;;
  warnings <- Get data "warnings" ;;
  html <- (has_warnings <- present_and_nonempty warnings ;;
           if has_warnings : bool then
             html <- forEach warnings append_item (html ++ warnings_open) ;;
             Ok (html ++ list_close)
           else Ok html) ;;
  if negb (ToBoolean errors) && negb (ToBoolean warnings)
  then Ok (html ++ no_issues)
  else Ok html.

(** One of the two sections, lines 44-50 and 51-57, as a function of
    the field [v] and of [html] before it; [formatResults] has the two
    inline. *)
Definition render_section (v : JsValue) (opening html : string)
  : Result string :=
  has <- present_and_nonempty v ;;
  if has : bool then
    html <- forEach v append_item (html ++ opening) ;;
    Ok (html ++ list_close)
  else Ok html.

End Engine.

(** A sample engine, with V8's wording. *)
Definition describe (v : JsValue) : string :=
  match v with
  | JsUndefined => "undefined"
  | JsNull => "null"
  | _ => "value"
  end.

Definition v8_message (f : Fault) : string :=
  match f with
  | ReadOfNullish base prop =>
      "Cannot read properties of " ++ describe base
        ++ " (reading '" ++ prop ++ "')"
  | NotAFunction _ prop => prop ++ " is not a function"
  | NoPrimitive _ => "Cannot convert object to primitive value"
  end.

(** ** The request *)

Record Request : Type := mkRequest
  { req_url : string;
    req_method : string;
    req_headers : list (string * string);
    req_body : option string }.

Definition hex_digit (n : nat) : ascii :=
  nth n ["0"; "1"; "2"; "3"; "4"; "5"; "6"; "7"; "8"; "9";
         "a"; "b"; "c"; "d"; "e"; "f"]%char "0"%char.

(** One code unit of [QuoteJSONString]: the seven short escapes, the
    remaining control characters as [\u00xx], everything else as it is. *)
Definition escape_char (c : ascii) : string :=
  let n := nat_of_ascii c in
  if (n =? 8)%nat then backslash ++ "b"
  else if (n =? 9)%nat then backslash ++ "t"
  else if (n =? 10)%nat then backslash ++ "n"
  else if (n =? 12)%nat then backslash ++ "f"
  else if (n =? 13)%nat then backslash ++ "r"
  else if (n =? 34)%nat then backslash ++ quot
  else if (n =? 92)%nat then backslash ++ backslash
  else if (n <? 32)%nat then
    backslash ++ "u00"
      ++ String (hex_digit (n / 16)) (String (hex_digit (n mod 16)) EmptyString)
  else String c EmptyString.

Fixpoint escape_chars (s : string) : string :=
  match s with
  | EmptyString => EmptyString
  | String c rest => escape_char c ++ escape_chars rest
  end.

Definition QuoteJSONString (s : string) : string :=
  quot ++ escape_chars s ++ quot.

(** The characters [QuoteJSONString] leaves as they are. *)
Definition plain (c : ascii) : bool :=
  let n := nat_of_ascii c in
  (32 <=? n)%nat && negb (n =? 34)%nat && negb (n =? 92)%nat.

Fixpoint all_plain (s : string) : bool :=
  match s with
  | EmptyString => true
  | String c rest => plain c && all_plain rest
  end.

Definition hex_value (c : ascii) : option nat :=
  let n := nat_of_ascii c in
  if (48 <=? n)%nat && (n <=? 57)%nat then Some (n - 48)
  else if (97 <=? n)%nat && (n <=? 102)%nat then Some (n - 87)
  else None.

(** How a JSON parser reads the inside of a string literal back, for the
    escapes [QuoteJSONString] writes: the two-character escapes and
    [\u00xx]. *)
Fixpoint unescape_chars (s : string) : option string :=
  match s with
  | EmptyString => Some EmptyString
  | String c rest =>
      if (nat_of_ascii c =? 92)%nat then
        match rest with
        | EmptyString => None
        | String e rest1 =>
            let n := nat_of_ascii e in
            if (n =? 98)%nat then option_map (String "008"%char) (unescape_chars rest1)
            else if (n =? 116)%nat then option_map (String "009"%char) (unescape_chars rest1)
            else if (n =? 110)%nat then option_map (String "010"%char) (unescape_chars rest1)
            else if (n =? 102)%nat then option_map (String "012"%char) (unescape_chars rest1)
            else if (n =? 114)%nat then option_map (String "013"%char) (unescape_chars rest1)
            else if (n =? 34)%nat then option_map (String "034"%char) (unescape_chars rest1)
            else if (n =? 92)%nat then option_map (String "092"%char) (unescape_chars rest1)
            else if (n =? 117)%nat then
              match rest1 with
              | String "0"%char (String "0"%char (String h (String l rest2))) =>
                  match hex_value h, hex_value l with
                  | Some a, Some b =>
                      option_map (String (ascii_of_nat (16 * a + b)))
                                 (unescape_chars rest2)
                  | _, _ => None
                  end
              | _ => None
              end
            else None
        end
      else option_map (String c) (unescape_chars rest)
  end.

Definition is_finite (repr : string) : bool :=
  negb ((repr =? "NaN") || (repr =? "Infinity") || (repr =? "-Infinity")).

(** [JSON.stringify(v)] for a value without [toJSON], which no value of
    [JsValue] has a callable one of.  [None] is [undefined]. *)
Fixpoint JSON_stringify (v : JsValue) : option string :=
  match v with
  | JsUndefined => None
  | JsNull => Some "null"
  | JsBool true => Some "true"
  | JsBool false => Some "false"
  | JsNumber repr => Some (if is_finite repr then repr else "null")
  | JsString s => Some (QuoteJSONString s)
  | JsArray items =>
      Some ("[" ++ String.concat ","
                     (map (fun x => match JSON_stringify x with
                                    | Some s => s
                                    | None => "null"
                                    end) items) ++ "]")
  | JsObject props =>
      Some ("{" ++ String.concat ","
                     (flat_map (fun kv => match JSON_stringify (snd kv) with
                                          | Some s => [QuoteJSONString (fst kv) ++ ":" ++ s]
                                          | None => []
                                          end) props) ++ "}")
  end.

(** ** The network *)

(** [response.json()] settles with the parsed body, rejects (a
    [SyntaxError] when the body is not JSON), or never settles. *)
Inductive BodyOutcome : Type :=
| BodyPending
| BodyRejected (e : JsError)
| BodyParsed (v : JsValue).

Record Response : Type := mkResponse
  { status : nat;
    json : BodyOutcome }.

(** [response.ok]: the status is in the range 200 to 299. *)
Definition ok (r : Response) : bool :=
  (200 <=? status r)%nat && (status r <=? 299)%nat.

(** [fetch(...)] resolves with a response whatever its status, rejects
    when the request could not be made, or never settles. *)
Inductive FetchOutcome : Type :=
| FetchPending
| FetchRejected (e : JsError)
| FetchResolved (r : Response).

(** ** The page and the handler's effects *)

(** What the handler reads and writes of the elements it looks up by
    identifier: the input field, the submit button and the result
    container.  The host page is assumed to contain them. *)
Record Dom : Type := mkDom
  { urlInput_value : string;
    submitBtn_disabled : bool;
    submitBtn_textContent : string;
    resultDiv_innerHTML : string }.

Inductive Event : Type :=
| PreventDefault
| SetDisabled (b : bool)
| SetTextContent (s : string)
| SetInnerHTML (s : string)
| Fetch (r : Request).

Record World : Type := mkWorld
  { page : Dom;
    trace : list Event }.

Definition apply_event (d : Dom) (ev : Event) : Dom :=
  match ev with
  | PreventDefault | Fetch _ => d
  | SetDisabled b =>
      mkDom (urlInput_value d) b (submitBtn_textContent d) (resultDiv_innerHTML d)
  | SetTextContent s =>
      mkDom (urlInput_value d) (submitBtn_disabled d) s (resultDiv_innerHTML d)
  | SetInnerHTML s =>
      mkDom (urlInput_value d) (submitBtn_disabled d) (submitBtn_textContent d) s
  end.

(** The page after a sequence of effects. *)
Definition replay (d : Dom) (evs : list Event) : Dom :=
  fold_left apply_event evs d.

(** How a piece of the asynchronous handler ends: normally, with a thrown
    error (a rejected promise at an [await] throws), or suspended for ever
    at an [await]. *)
Inductive Completion (A : Type) : Type :=
| Normal (a : A)
| Throw (e : JsError)
| Suspended.
Arguments Normal {A} a.
Arguments Throw {A} e.
Arguments Suspended {A}.

Definition Handler (A : Type) : Type := World -> Completion A * World.

#[export] Instance Monad_Handler : Monad Handler :=
  {| ret := fun _ a w => (Normal a, w);
     bind := fun _ _ c k w =>
       match c w with
       | (Normal a, w') => k a w'
       | (Throw e, w') => (Throw e, w')
       | (Suspended, w') => (Suspended, w')
       end |}.

Definition throw {A : Type} (e : JsError) : Handler A :=
  fun w => (Throw e, w).

(** Running code that may throw inside the handler. *)
Definition lift {A : Type} (r : Result A) : Handler A :=
  fun w => match r with
           | Ok a => (Normal a, w)
           | Raise e => (Throw e, w)
           end.

Definition perform (ev : Event) : Handler unit :=
  fun w => (Normal tt, mkWorld (apply_event (page w) ev) (trace w ++ [ev])).

Definition read_urlInput_value : Handler string :=
  fun w => (Normal (urlInput_value (page w)), w).

(** [await p]. *)
Definition await_fetch (o : FetchOutcome) : Handler Response :=
  fun w => match o with
           | FetchPending => (Suspended, w)
           | FetchRejected e => (Throw e, w)
           | FetchResolved r => (Normal r, w)
           end.

Definition await_json (r : Response) : Handler JsValue :=
  fun w => match json r with
           | BodyPending => (Suspended, w)
           | BodyRejected e => (Throw e, w)
           | BodyParsed v => (Normal v, w)
           end.

(** [try { body } catch (error) { handler } finally { cleanup }]: the
    cleanup runs after the body or the catch clause has completed, and the
    statement then completes as they did unless the cleanup itself
    completes abruptly. *)
Definition after_cleanup (c : Completion unit) (cleanup : Handler unit)
  : Handler unit :=
  fun w => match cleanup w with
           | (Normal _, w') => (c, w')
           | abrupt => abrupt
           end.

Definition try_catch_finally (body : Handler unit)
    (handler : JsError -> Handler unit) (cleanup : Handler unit)
  : Handler unit :=
  fun w => match body w with
           | (Normal a, w1) => after_cleanup (Normal a) cleanup w1
           | (Throw e, w1) =>
               match handler e w1 with
               | (Suspended, w2) => (Suspended, w2)
               | (c, w2) => after_cleanup c cleanup w2
               end
           | (Suspended, w1) => (Suspended, w1)
           end.

Definition endpoint : string := "https://seoauditai.onrender.com/audit".

Definition audit_request (url : string) : Request :=
  mkRequest endpoint "POST" [("Content-Type", "application/json")]
            (JSON_stringify (JsObject [("url", JsString url)])).

Definition danger_banner (text : string) : string :=
  "<div class=" ++ quot ++ "alert alert-danger" ++ quot ++ ">Error: "
    ++ text ++ "</div>".

Definition http_error (r : Response) : JsError :=
  mkError "Error" ("HTTP error! Status: " ++ string_of_nat (status r)).

Section Handler.

Variable fault_message : Fault -> string.

(** The service: what the [fetch] of a request settles to. *)
Variable network : Request -> FetchOutcome.

(** Lines 27-31, rendering the parsed response. *)
Definition render_response (data : JsValue) : Handler unit :=
  data_status <- lift (Get fault_message data "status") ;;
  if strict_equals data_status "success" then
    data_data <- lift (Get fault_message data "data") ;;
    html <- lift (formatResults fault_message data_data) ;;
    perform (SetInnerHTML html)
  else
    data_message <- lift (Get fault_message data "message") ;;
    text <- lift (ToString fault_message
                    (if ToBoolean data_message then data_message
                     else JsString "Audit failed")) ;;
    perform (SetInnerHTML (danger_banner text)).

(** Lines 13-31, the body of the [try]. *)
Definition try_block (url : string) : Handler unit :=
  let request := audit_request url in
  perform (Fetch request) ;;
  response <- await_fetch (network request) ;;
  (if negb (ok response) then throw (http_error response) else ret tt) ;;
  data <- await_json response ;;
  render_response data.

(** Lines 32-33. *)
Definition catch_block (error : JsError) : Handler unit :=
  perform (SetInnerHTML (danger_banner (message error))).

(** Lines 34-37. *)
Definition finally_block : Handler unit :=
  perform (SetDisabled false) ;;
  perform (SetTextContent "Run Audit").

(** Lines 1-38, the listener. *)
Definition submit_handler : Handler unit :=
  perform PreventDefault ;;
  url <- read_urlInput_value ;;
  perform (SetDisabled true) ;;
  perform (SetTextContent "Running Audit...") ;;
  perform (SetInnerHTML "<p>Loading...</p>") ;;
  try_catch_finally (try_block url) catch_block finally_block.

(** One submission on a page [d]. *)
Definition submit (d : Dom) : Completion unit * World :=
  submit_handler (mkWorld d []).

End Handler.

(** ** Stages of a submission *)

(** The effects before the request, and the page they leave. *)
Definition preamble : list Event :=
  [PreventDefault; SetDisabled true; SetTextContent "Running Audit...";
   SetInnerHTML "<p>Loading...</p>"].

Definition busy (d : Dom) : Dom :=
  mkDom (urlInput_value d) true "Running Audit..." "<p>Loading...</p>".

(** The effects of the [finally] block, and the page once the handler has
    completed with [html] in the result container. *)
Definition cleanup : list Event :=
  [SetDisabled false; SetTextContent "Run Audit"].

Definition idle (d : Dom) (html : string) : Dom :=
  mkDom (urlInput_value d) false "Run Audit" html.

(** The promises the handler awaits settle: the [fetch], and the body
    when the handler gets to read it. *)
Definition settles (o : FetchOutcome) : bool :=
  match o with
  | FetchPending => false
  | FetchRejected _ => true
  | FetchResolved r =>
      negb (ok r) || match json r with
                     | BodyPending => false
                     | _ => true
                     end
  end.

(** The three ways the request itself fails, with the error each throws
    inside the [try] block: the [fetch] is rejected, the status is not a
    success, or the body is not JSON. *)
Inductive request_failure : FetchOutcome -> JsError -> Prop :=
| network_failure (e : JsError) :
    request_failure (FetchRejected e) e
| bad_status (r : Response) :
    ok r = false -> request_failure (FetchResolved r) (http_error r)
| parse_failure (r : Response) (e : JsError) :
    ok r = true -> json r = BodyRejected e ->
    request_failure (FetchResolved r) e.

Definition is_fetch (ev : Event) : bool :=
  match ev with
  | Fetch _ => true
  | _ => false
  end.

(** The page as it is each time a request is issued. *)
Fixpoint pages_at_fetch (d : Dom) (evs : list Event) : list Dom :=
  match evs with
  | [] => []
  | Fetch r :: rest => d :: pages_at_fetch d rest
  | ev :: rest => pages_at_fetch (apply_event d ev) rest
  end.

(** ** A sample engine and sample inputs *)

Definition sample_page : Dom :=
  mkDom "https://example.com" false "Run Audit" EmptyString.

(** A page whose submit control carries another label. *)
Definition analyze_page : Dom :=
  mkDom "https://example.com" false "Analyze site" EmptyString.

(** A service that answers every request with status 200 and body [v]. *)
Definition answering (v : JsValue) : Request -> FetchOutcome :=
  fun _ => FetchResolved (mkResponse 200 (BodyParsed v)).

Definition empty_data : JsValue := JsObject [].

Definition empty_lists_data : JsValue :=
  JsObject [("errors", JsArray []); ("warnings", JsArray [])].

Definition sample_data : JsValue :=
  JsObject [("errors", JsArray [JsString "E1"]);
            ("warnings", JsArray [JsString "W1"; JsString "W2"])].

(** The responses of the spec's examples. *)
Definition success_response (data : JsValue) : JsValue :=
  JsObject [("status", JsString "success"); ("data", data)].

Definition error_response (text : string) : JsValue :=
  JsObject [("status", JsString "error"); ("message", JsString text)].

(** A service that fails every request with the given status. *)
Definition failing_with (code : nat) : Request -> FetchOutcome :=
  fun _ => FetchResolved (mkResponse code BodyPending).

(** A service whose body is not JSON, with the error V8 raises. *)
Definition not_json : JsError :=
  mkError "SyntaxError" "Unexpected token '<', is not valid JSON".

Definition answering_html : Request -> FetchOutcome :=
  fun _ => FetchResolved (mkResponse 200 (BodyRejected not_json)).

(** ** The schema's fields *)

(** A field of the response schema as a value: absent, or the array of
    its strings. *)
Definition field_value (texts : option (list string)) : JsValue :=
  match texts with
  | None => JsUndefined
  | Some l => JsArray (map JsString l)
  end.

(** The markup of a section: nothing for an absent or empty field. *)
Definition section_markup (opening : string) (texts : option (list string))
  : string :=
  match texts with
  | None | Some [] => EmptyString
  | Some l => opening ++ list_items l ++ list_close
  end.

Definition entries (texts : option (list string)) : list string :=
  match texts with
  | None => []
  | Some l => l
  end.

Definition is_array (v : JsValue) : bool :=
  match v with
  | JsArray _ => true
  | _ => false
  end.

(** Data that is not an object and not nullish: a boolean, a number, a
    string or an array. *)
Definition is_plain_value (v : JsValue) : bool :=
  match v with
  | JsBool _ | JsNumber _ | JsString _ | JsArray _ => true
  | _ => false
  end.

(** Further sample inputs. *)
Definition never_answering : Request -> FetchOutcome :=
  fun _ => FetchPending.

Definition mixed_entries : list JsValue :=
  [JsNull; JsNumber "3"; JsArray [JsString "a"; JsNull; JsBool true]; JsObject []].

(** ** Proof tools *)

(** Induction on values, through the arrays and the objects. *)
Fixpoint JsValue_nested_ind (P : JsValue -> Prop)
    (Hundefined : P JsUndefined) (Hnull : P JsNull)
    (Hbool : forall b, P (JsBool b)) (Hnumber : forall repr, P (JsNumber repr))
    (Hstring : forall s, P (JsString s))
    (Harray : forall items, Forall P items -> P (JsArray items))
    (Hobject : forall props,
        Forall (fun kv => P (snd kv)) props -> P (JsObject props))
    (v : JsValue) {struct v} : P v :=
  let rec_ := JsValue_nested_ind P Hundefined Hnull Hbool Hnumber Hstring
                Harray Hobject in
  match v with
  | JsUndefined => Hundefined
  | JsNull => Hnull
  | JsBool b => Hbool b
  | JsNumber repr => Hnumber repr
  | JsString s => Hstring s
  | JsArray items =>
      Harray items
        ((fix all (l : list JsValue) : Forall P l :=
            match l with
            | [] => Forall_nil P
            | x :: rest => Forall_cons x (rec_ x) (all rest)
            end) items)
  | JsObject props =>
      Hobject props
        ((fix all (l : list (string * JsValue))
            : Forall (fun kv => P (snd kv)) l :=
            match l with
            | [] => Forall_nil _
            | kv :: rest => Forall_cons kv (rec_ (snd kv)) (all rest)
            end) props)
  end.

(** Case analysis on the innermost scrutinee of the goal. *)
Ltac case_on_scrutinee :=
  match goal with
  | |- context [match ?x with _ => _ end] =>
      match x with
      | context [match _ with _ => _ end] => fail 1
      | _ => destruct x eqn:?
      end
  end.

(** * Properties *)

(** ** Strings *)

Lemma append_assoc (a b c : string) : (a ++ b) ++ c = a ++ (b ++ c).
Proof. induction a as [|ch a IH]; simpl; [reflexivity | now rewrite IH]. Qed.

Lemma append_nil_r (a : string) : a ++ EmptyString = a.
Proof. induction a as [|ch a IH]; simpl; [reflexivity | now rewrite IH]. Qed.

Lemma prefix_append (part rest : string) : String.prefix part (part ++ rest) = true.
Proof.
  induction part as [|ch part IH]; simpl.
  - now destruct rest.
  - destruct (ascii_dec ch ch) as [_|ne]; [exact IH | now elim ne].
Qed.

Lemma includes_prefix (part text : string) :
  String.prefix part text = true -> includes part text = true.
Proof. intros E. destruct text; cbn [includes]; rewrite E; reflexivity. Qed.

Lemma includes_append (before part rest : string) :
  includes part (before ++ part ++ rest) = true.
Proof.
  induction before as [|ch before IH].
  - simpl (EmptyString ++ _). rewrite includes_prefix; [reflexivity|].
    apply prefix_append.
  - cbn [includes append]. rewrite IH. apply orb_true_r.
Qed.

Lemma string_of_nat_zero (n : nat) : string_of_nat n = "0" -> n = 0.
Proof.
  unfold string_of_nat. intros E.
  pose proof (NilEmpty.usu (Nat.to_uint n)) as U. rewrite E in U. simpl in U.
  injection U as U. apply Unsigned.to_uint_inj. rewrite <- U. reflexivity.
Qed.

Lemma string_of_nat_not_NaN (n : nat) : string_of_nat n <> "NaN".
Proof.
  unfold string_of_nat. intros E.
  pose proof (NilEmpty.usu (Nat.to_uint n)) as U. rewrite E in U. discriminate U.
Qed.

(** A length is truthy exactly when it is not zero. *)
Lemma length_truthy (n : nat) :
  ToBoolean (JsNumber (string_of_nat n)) = negb (n =? 0)%nat.
Proof.
  destruct n as [|n]; [reflexivity|]. simpl ToBoolean.
  destruct (String.eqb_spec (string_of_nat (S n)) "0") as [E|_].
  - apply string_of_nat_zero in E. discriminate E.
  - destruct (String.eqb_spec (string_of_nat (S n)) "NaN") as [E|_].
    + now apply string_of_nat_not_NaN in E.
    + reflexivity.
Qed.

(** ** [formatResults] *)

Lemma formatResults_sections fault_message (data : JsValue) :
  formatResults fault_message data
  = (errors <- Get fault_message data "errors" ;;
     html <- render_section fault_message errors errors_open heading ;;
     warnings <- Get fault_message data "warnings" ;;
     html <- render_section fault_message warnings warnings_open html ;;
     if negb (ToBoolean errors) && negb (ToBoolean warnings)
     then Ok (html ++ no_issues)
     else Ok html).
Proof. reflexivity. Qed.

Lemma nonempty_array fault_message (items : list JsValue) :
  present_and_nonempty fault_message (JsArray items)
  = Ok (negb (List.length items =? 0)%nat).
Proof.
  unfold present_and_nonempty, Get. cbn [ToBoolean String.eqb Ascii.eqb Bool.eqb].
  cbn [bind Monad_Result]. now rewrite length_truthy.
Qed.

(** The loop of lines 46-48 over an array of strings appends their items
    in array order. *)
Lemma forEach_strings fault_message (texts : list string) (html : string) :
  forEach_items (map JsString texts) (append_item fault_message) html
  = Ok (html ++ list_items texts).
Proof.
  revert html. induction texts as [|text texts IH]; intros html.
  - simpl. now rewrite append_nil_r.
  - cbn [map forEach_items append_item ToString bind Monad_Result].
    rewrite IH. cbn [list_items]. now rewrite append_assoc.
Qed.

Lemma map_JsString_length (texts : list string) :
  texts <> [] -> (List.length (map JsString texts) =? 0)%nat = false.
Proof. now destruct texts. Qed.

(** C3.  When [data.errors] and [data.warnings] are non-empty arrays of
    strings, the markup is the heading, then the errors section with one
    list item per error in array order, then the warnings section with one
    list item per warning in array order; each item holds its entry's text
    as it is, and nothing follows the warnings section. *)
Theorem formatResults_errors_then_warnings
    fault_message (data : JsValue) (errors warnings : list string) :
  Get fault_message data "errors" = Ok (JsArray (map JsString errors)) ->
  Get fault_message data "warnings" = Ok (JsArray (map JsString warnings)) ->
  errors <> [] ->
  warnings <> [] ->
  formatResults fault_message data
  = Ok (heading
          ++ errors_open ++ list_items errors ++ list_close
          ++ warnings_open ++ list_items warnings ++ list_close).
Proof.
  intros He Hw Ne Nw. unfold formatResults.
  rewrite He, Hw. cbn [bind Monad_Result].
  rewrite !nonempty_array, !map_JsString_length by assumption.
  cbn [negb forEach bind Monad_Result].
  rewrite !forEach_strings. cbn [bind Monad_Result ToBoolean negb andb].
  now rewrite !append_assoc.
Qed.

Lemma formatResults_errors_then_warnings_witness :
  formatResults v8_message sample_data
  = Ok (heading
          ++ errors_open ++ list_item "E1" ++ list_close
          ++ warnings_open ++ list_item "W1" ++ list_item "W2" ++ list_close).
Proof.
  apply (formatResults_errors_then_warnings v8_message sample_data
           ["E1"] ["W1"; "W2"]);
    [reflexivity | reflexivity | discriminate | discriminate].
Defined.

(** The loops only ever append to [html]. *)
Lemma forEach_items_extends fault_message (items : list JsValue) :
  forall acc html,
    forEach_items items (append_item fault_message) acc = Ok html ->
    exists rest, html = acc ++ rest.
Proof.
  induction items as [|x items IH]; intros acc html.
  - cbn. intros [= <-]. exists EmptyString. now rewrite append_nil_r.
  - cbn [forEach_items append_item bind Monad_Result].
    destruct (ToString fault_message x) as [text|e]; [|discriminate].
    intros H. apply IH in H as [rest ->].
    exists (list_item text ++ rest). now rewrite append_assoc.
Qed.

Lemma render_section_extends fault_message (v : JsValue) (opening html html' : string) :
  render_section fault_message v opening html = Ok html' ->
  exists rest, html' = html ++ rest.
Proof.
  unfold render_section. cbn [bind Monad_Result].
  destruct (present_and_nonempty fault_message v) as [[|]|e]; try discriminate.
  - destruct v; cbn [forEach]; try discriminate.
    destruct (forEach_items items (append_item fault_message) (html ++ opening))
      as [html1|e] eqn:E; [|discriminate].
    intros [= <-]. apply forEach_items_extends in E as [rest ->].
    exists (opening ++ rest ++ list_close). now rewrite !append_assoc.
  - intros [= <-]. exists EmptyString. now rewrite append_nil_r.
Qed.

Lemma strings_only (items : list JsValue) :
  forallb is_string items = true -> exists texts, items = map JsString texts.
Proof.
  induction items as [|x items IH]; cbn [forallb].
  - intros _. now exists [].
  - intros [Hx Hr]%andb_prop. destruct (IH Hr) as [texts ->].
    destruct x; try discriminate Hx. now exists (s :: texts).
Qed.

(** A field of the schema's shape never makes its section throw. *)
Lemma render_section_returns fault_message (v : JsValue) (opening html : string) :
  strings_or_absent v = true ->
  exists rest, render_section fault_message v opening html = Ok (html ++ rest).
Proof.
  destruct v; try discriminate; cbn [strings_or_absent]; intros H.
  - exists EmptyString. now rewrite append_nil_r.
  - apply strings_only in H as [texts ->]. unfold render_section.
    rewrite nonempty_array. cbn [bind Monad_Result forEach].
    destruct (List.length (map JsString texts) =? 0)%nat; cbn [negb].
    + exists EmptyString. now rewrite append_nil_r.
    + rewrite forEach_strings. cbn [bind Monad_Result].
      exists (opening ++ list_items texts ++ list_close).
      now rewrite !append_assoc.
Qed.

(** C10.  Whenever [formatResults] returns, its markup begins with the
    heading; and it does return, for every data object whose [errors] and
    [warnings] are each absent or an array of strings. *)
Theorem formatResults_begins_with_heading fault_message (data : JsValue) :
  (forall html, formatResults fault_message data = Ok html ->
                exists rest, html = heading ++ rest)
  /\ (forall errors warnings,
        Get fault_message data "errors" = Ok errors ->
        Get fault_message data "warnings" = Ok warnings ->
        strings_or_absent errors = true ->
        strings_or_absent warnings = true ->
        exists rest, formatResults fault_message data = Ok (heading ++ rest)).
Proof.
  split.
  - intros html. rewrite formatResults_sections.
    destruct (Get fault_message data "errors") as [errors|e]; [|discriminate].
    cbn [bind Monad_Result].
    destruct (render_section fault_message errors errors_open heading)
      as [html1|e] eqn:E1; [|discriminate].
    destruct (Get fault_message data "warnings") as [warnings|e]; [|discriminate].
    destruct (render_section fault_message warnings warnings_open html1)
      as [html2|e] eqn:E2; [|discriminate].
    apply render_section_extends in E1 as [rest1 ->].
    apply render_section_extends in E2 as [rest2 ->].
    destruct (negb (ToBoolean errors) && negb (ToBoolean warnings));
      intros [= <-]; rewrite ?append_assoc; eexists; reflexivity.
  - intros errors warnings He Hw Se Sw. rewrite formatResults_sections, He, Hw.
    cbn [bind Monad_Result].
    destruct (render_section_returns fault_message errors errors_open heading Se)
      as [rest1 ->].
    destruct (render_section_returns fault_message warnings warnings_open
                (heading ++ rest1) Sw) as [rest2 ->].
    destruct (negb (ToBoolean errors) && negb (ToBoolean warnings));
      rewrite ?append_assoc; eexists; reflexivity.
Qed.

Lemma formatResults_begins_with_heading_witness :
  exists rest, formatResults v8_message empty_data = Ok (heading ++ rest).
Proof.
  apply (proj2 (formatResults_begins_with_heading v8_message empty_data)
           JsUndefined JsUndefined); reflexivity.
Defined.

(** With neither field present, the markup is the heading and the
    indicator, without any list item. *)
Lemma formatResults_empty_data fault_message :
  formatResults fault_message empty_data = Ok (heading ++ no_issues)
  /\ includes no_issues (heading ++ no_issues) = true
  /\ includes "<li" (heading ++ no_issues) = false.
Proof. repeat split; reflexivity. Qed.

(** C2, at [{errors: [], warnings: []}].  Neither field is present and
    non-empty, yet line 58 tests the arrays themselves, which are truthy
    when empty: no section is rendered and no indicator either. *)
Theorem formatResults_empty_lists_without_indicator fault_message :
  present_and_nonempty fault_message (JsArray []) = Ok false
  /\ formatResults fault_message empty_lists_data = Ok heading
  /\ includes no_issues heading = false.
Proof. repeat split; reflexivity. Qed.

Lemma ToString_array fault_message (x : JsValue) (rest : list JsValue) :
  ToString fault_message (JsArray (x :: rest))
  = (sx <- (if is_nullish x then Ok EmptyString else ToString fault_message x) ;;
     match rest with
     | [] => Ok sx
     | _ :: _ => srest <- ToString fault_message (JsArray rest) ;;
                 Ok (sx ++ "," ++ srest)
     end).
Proof. reflexivity. Qed.

(** A value that converts to a string under one engine converts to the
    same string under every engine: only the messages of the faults are
    the engine's. *)
Lemma ToString_engine fault_message fault_message' (v : JsValue) :
  forall text, ToString fault_message v = Ok text ->
               ToString fault_message' v = Ok text.
Proof.
  induction v as [| |b|repr|s|items IH|props _] using JsValue_nested_ind;
    try (intros text H; exact H).
  - induction IH as [|x rest Hx _ IHrest]; intros text; [intros H; exact H|].
    rewrite !ToString_array. cbn [bind Monad_Result].
    assert (Hx' : forall sx,
               (if is_nullish x then Ok EmptyString else ToString fault_message x) = Ok sx ->
               (if is_nullish x then Ok EmptyString else ToString fault_message' x) = Ok sx).
    { destruct (is_nullish x); [intros sx H; exact H | exact Hx]. }
    destruct (if is_nullish x then Ok EmptyString else ToString fault_message x)
      as [sx|e]; [|discriminate].
    rewrite (Hx' sx eq_refl). destruct rest as [|y rest]; [intros H; exact H|].
    destruct (ToString fault_message (JsArray (y :: rest))) as [srest|e];
      [|discriminate].
    rewrite (IHrest srest eq_refl). intros H; exact H.
  - intros text. cbn [ToString].
    destruct (own_property props "toString"); [discriminate | intros H; exact H].
Qed.

Lemma Get_engine fault_message fault_message' (base : JsValue) (name : string) :
  forall v, Get fault_message base name = Ok v ->
            Get fault_message' base name = Ok v.
Proof. destruct base; intros v H; try discriminate H; exact H. Qed.

Lemma present_and_nonempty_engine fault_message fault_message' (v : JsValue) :
  present_and_nonempty fault_message v = present_and_nonempty fault_message' v.
Proof. destruct v; reflexivity. Qed.

Lemma forEach_items_engine fault_message fault_message' (items : list JsValue) :
  forall acc html,
    forEach_items items (append_item fault_message) acc = Ok html ->
    forEach_items items (append_item fault_message') acc = Ok html.
Proof.
  induction items as [|x items IH]; intros acc html; [intros H; exact H|].
  cbn [forEach_items append_item bind Monad_Result].
  destruct (ToString fault_message x) as [text|e] eqn:E; [|discriminate].
  rewrite (ToString_engine fault_message fault_message' x text E). apply IH.
Qed.

Lemma render_section_engine fault_message fault_message'
    (v : JsValue) (opening html html' : string) :
  render_section fault_message v opening html = Ok html' ->
  render_section fault_message' v opening html = Ok html'.
Proof.
  unfold render_section.
  rewrite (present_and_nonempty_engine fault_message fault_message').
  destruct (present_and_nonempty fault_message' v) as [[|]|e];
    cbn [bind Monad_Result]; try (intros H; exact H).
  destruct v; cbn [forEach]; try discriminate.
  destruct (forEach_items items (append_item fault_message) (html ++ opening))
    as [html1|e] eqn:E; [|discriminate].
  now rewrite (forEach_items_engine fault_message fault_message' items _ _ E).
Qed.

(** C9.  [formatResults] is a function of its argument alone.  Called on
    the same data in any two states of the page it completes in the same
    way and leaves the page and the trace as they were; and the markup it
    returns does not depend on the engine either, whose only part is the
    wording of the faults. *)
Theorem formatResults_deterministic fault_message (data : JsValue) :
  (forall w1 w2 : World,
      fst (lift (formatResults fault_message data) w1)
      = fst (lift (formatResults fault_message data) w2)
      /\ snd (lift (formatResults fault_message data) w1) = w1)
  /\ (forall fault_message' html,
         formatResults fault_message data = Ok html ->
         formatResults fault_message' data = Ok html).
Proof.
  split.
  - intros w1 w2. unfold lift.
    destruct (formatResults fault_message data); split; reflexivity.
  - intros fault_message' html. rewrite !formatResults_sections.
    destruct (Get fault_message data "errors") as [errors|e] eqn:Ee;
      [|discriminate].
    rewrite (Get_engine _ fault_message' _ _ _ Ee). cbn [bind Monad_Result].
    destruct (render_section fault_message errors errors_open heading)
      as [html1|e] eqn:E1; [|discriminate].
    rewrite (render_section_engine _ fault_message' _ _ _ _ E1).
    destruct (Get fault_message data "warnings") as [warnings|e] eqn:Ew;
      [|discriminate].
    rewrite (Get_engine _ fault_message' _ _ _ Ew).
    destruct (render_section fault_message warnings warnings_open html1)
      as [html2|e] eqn:E2; [|discriminate].
    rewrite (render_section_engine _ fault_message' _ _ _ _ E2).
    intros H; exact H.
Qed.

Lemma formatResults_deterministic_witness :
  formatResults (fun _ => EmptyString) sample_data
  = Ok (heading
          ++ errors_open ++ list_item "E1" ++ list_close
          ++ warnings_open ++ list_item "W1" ++ list_item "W2" ++ list_close).
Proof.
  apply (proj2 (formatResults_deterministic v8_message sample_data)).
  reflexivity.
Defined.

(** ** The handler *)

(** Rendering the response either throws without an effect or sets the
    result container, once. *)
Lemma render_response_cases fault_message (data : JsValue) (w : World) :
  (exists e, render_response fault_message data w = (Throw e, w))
  \/ (exists html,
         render_response fault_message data w
         = (Normal tt,
            mkWorld (apply_event (page w) (SetInnerHTML html))
                    (trace w ++ [SetInnerHTML html]))).
Proof.
  unfold render_response, lift, perform. cbn [bind Monad_Handler].
  repeat case_on_scrutinee; eauto.
Qed.

(** The [try] block issues the request first; then it is suspended or
    throws without a further effect, or it renders some markup. *)
Lemma try_block_cases fault_message network (url : string) (w : World) :
  let sent := mkWorld (page w) (trace w ++ [Fetch (audit_request url)]) in
  (settles (network (audit_request url)) = false
   /\ try_block fault_message network url w = (Suspended, sent))
  \/ (settles (network (audit_request url)) = true
      /\ exists e, try_block fault_message network url w = (Throw e, sent))
  \/ (settles (network (audit_request url)) = true
      /\ exists html,
          try_block fault_message network url w
          = (Normal tt,
             mkWorld (apply_event (page w) (SetInnerHTML html))
                     (trace w ++ [Fetch (audit_request url); SetInnerHTML html]))).
Proof.
  intros sent. unfold try_block, await_fetch, await_json, throw, settles.
  cbn [bind ret Monad_Handler perform apply_event page trace]. fold sent.
  destruct (network (audit_request url)) as [|e|r]; eauto.
  destruct (ok r); cbn [negb orb]; eauto.
  destruct (json r) as [|e|data]; eauto.
  destruct (render_response_cases fault_message data sent) as [[e ->]|[html ->]];
    eauto.
  right; right. split; [reflexivity|]. exists html. subst sent. cbn [page trace].
  now rewrite <- app_assoc.
Qed.

Lemma submit_unfold fault_message network (d : Dom) :
  submit fault_message network d
  = try_catch_finally (try_block fault_message network (urlInput_value d))
      catch_block finally_block (mkWorld (busy d) preamble).
Proof. reflexivity. Qed.

(** What a submission amounts to, from the way its [try] block ends. *)
Lemma submit_after_try fault_message network (d : Dom) :
  let request := Fetch (audit_request (urlInput_value d)) in
  let completed html :=
    (Normal tt,
     mkWorld (idle d html) (preamble ++ [request; SetInnerHTML html] ++ cleanup)) in
  match try_block fault_message network (urlInput_value d)
          (mkWorld (busy d) preamble) with
  | (Suspended, _) =>
      submit fault_message network d
      = (Suspended, mkWorld (busy d) (preamble ++ [request]))
  | (Throw e, _) =>
      submit fault_message network d = completed (danger_banner (message e))
  | (Normal _, w) =>
      submit fault_message network d = completed (resultDiv_innerHTML (page w))
  end.
Proof.
  intros request completed. rewrite submit_unfold. unfold try_catch_finally.
  destruct (try_block_cases fault_message network (urlInput_value d)
              (mkWorld (busy d) preamble))
    as [[_ ->]|[[_ [e ->]]|[_ [html ->]]]]; reflexivity.
Qed.

(** The page always is what the effects of the trace make of it. *)
Lemma submit_page_replay fault_message network (d : Dom) :
  page (snd (submit fault_message network d))
  = replay d (trace (snd (submit fault_message network d))).
Proof.
  pose proof (submit_after_try fault_message network d) as H. cbv zeta in H.
  destruct (try_block fault_message network (urlInput_value d)
              (mkWorld (busy d) preamble)) as [[[]|e|] w];
    rewrite H; destruct d; reflexivity.
Qed.

(** The claim C1 fails on a page whose submit control is not labelled
    [Run Audit]: lines 9 and 36 write two fixed texts and never save the
    label they replace. *)
Lemma label_not_restored :
  let end_ :=
    submit v8_message (answering (success_response sample_data)) analyze_page in
  settles (answering (success_response sample_data)
             (audit_request (urlInput_value analyze_page))) = true
  /\ fst end_ = Normal tt
  /\ submitBtn_textContent analyze_page = "Analyze site"
  /\ submitBtn_textContent (page (snd end_)) = "Run Audit"
  /\ submitBtn_textContent (page (snd end_))
     <> submitBtn_textContent analyze_page.
Proof. repeat split. discriminate. Qed.

(** C1, amended.  Whenever the awaited promises settle, whichever way, the
    handler completes, and its last two effects re-enable the submit
    control and set its label to the fixed text [Run Audit], whatever the
    label was before the submission; so the control gets its original
    label back exactly when that label was [Run Audit]. *)
Theorem submit_always_cleans_up fault_message network (d : Dom) :
  settles (network (audit_request (urlInput_value d))) = true ->
  let end_ := submit fault_message network d in
  fst end_ = Normal tt
  /\ (exists before, trace (snd end_) = (before ++ cleanup)%list)
  /\ submitBtn_disabled (page (snd end_)) = false
  /\ submitBtn_textContent (page (snd end_)) = "Run Audit"
  /\ (submitBtn_textContent (page (snd end_)) = submitBtn_textContent d
      <-> submitBtn_textContent d = "Run Audit").
Proof.
  intros Hs end_. subst end_.
  pose proof (submit_after_try fault_message network d) as H. cbv zeta in H.
  destruct (try_block_cases fault_message network (urlInput_value d)
              (mkWorld (busy d) preamble))
    as [[Hn _]|[[_ [e E]]|[_ [html E]]]].
  - rewrite Hs in Hn. discriminate Hn.
  - rewrite E in H. rewrite H. cbn [fst snd page trace idle
      submitBtn_disabled submitBtn_textContent].
    split; [reflexivity|]. split; [|repeat split; now intros ->].
    exists (preamble ++ [Fetch (audit_request (urlInput_value d));
                         SetInnerHTML (danger_banner (message e))])%list.
    now rewrite app_assoc.
  - rewrite E in H. rewrite H. cbn [fst snd page trace idle
      submitBtn_disabled submitBtn_textContent].
    split; [reflexivity|]. split; [|repeat split; now intros ->].
    eexists (preamble ++ [Fetch (audit_request (urlInput_value d)); _])%list.
    now rewrite app_assoc.
Qed.

Lemma submit_always_cleans_up_witness :
  let end_ :=
    submit v8_message (answering (success_response sample_data)) analyze_page in
  fst end_ = Normal tt
  /\ (exists before, trace (snd end_) = (before ++ cleanup)%list)
  /\ submitBtn_disabled (page (snd end_)) = false
  /\ submitBtn_textContent (page (snd end_)) = "Run Audit"
  /\ (submitBtn_textContent (page (snd end_)) = submitBtn_textContent analyze_page
      <-> submitBtn_textContent analyze_page = "Run Audit").
Proof.
  apply (submit_always_cleans_up v8_message
           (answering (success_response sample_data)) analyze_page).
  reflexivity.
Defined.

(** X7.  While a promise the handler awaits never settles, the handler
    stays suspended after the request and never gets to its cleanup: the
    control stays disabled, labelled as in progress, over the loading
    placeholder. *)
Lemma submit_pending_stays_busy fault_message network (d : Dom) :
  settles (network (audit_request (urlInput_value d))) = false ->
  submit fault_message network d
  = (Suspended,
     mkWorld (busy d) (preamble ++ [Fetch (audit_request (urlInput_value d))])).
Proof.
  intros Hs.
  pose proof (submit_after_try fault_message network d) as H. cbv zeta in H.
  destruct (try_block_cases fault_message network (urlInput_value d)
              (mkWorld (busy d) preamble))
    as [[_ E]|[[Hn _]|[Hn _]]]; try (rewrite Hs in Hn; discriminate Hn).
  rewrite E in H. exact H.
Qed.

Lemma pages_at_fetch_In (before after : list Event) (r : Request) :
  forall d, In (replay d before) (pages_at_fetch d (before ++ Fetch r :: after)).
Proof.
  induction before as [|ev before IH]; intros d.
  - now left.
  - cbn [app replay fold_left]. destruct ev; cbn [pages_at_fetch apply_event];
      try apply IH. right. apply IH.
Qed.

Lemma submit_trace fault_message network (d : Dom) :
  exists rest,
    trace (snd (submit fault_message network d))
    = (preamble ++ Fetch (audit_request (urlInput_value d)) :: rest)%list
    /\ forallb (fun ev => negb (is_fetch ev)) rest = true.
Proof.
  pose proof (submit_after_try fault_message network d) as H. cbv zeta in H.
  destruct (try_block fault_message network (urlInput_value d)
              (mkWorld (busy d) preamble)) as [[[]|e|] w];
    rewrite H; cbn [snd trace]; eexists; split; reflexivity.
Qed.

Lemma pages_at_fetch_quiet (rest : list Event) :
  forallb (fun ev => negb (is_fetch ev)) rest = true ->
  forall d, pages_at_fetch d rest = [].
Proof.
  induction rest as [|ev rest IH]; [reflexivity|].
  cbn [forallb]. intros [Hev Hrest]%andb_prop d.
  destruct ev; try discriminate Hev; cbn [pages_at_fetch]; now apply IH.
Qed.

Lemma filter_quiet (rest : list Event) :
  forallb (fun ev => negb (is_fetch ev)) rest = true ->
  filter is_fetch rest = [].
Proof.
  induction rest as [|ev rest IH]; [reflexivity|].
  cbn [forallb filter]. intros [Hev Hrest]%andb_prop.
  destruct (is_fetch ev); [discriminate Hev | now apply IH].
Qed.

(** C7.  Whatever the service does, the handler's first effects, in this
    order, are: prevent the default, disable the submit control, set its
    label to [Running Audit...], put the loading placeholder in the result
    container, and only then issue the request.  So wherever the trace has
    a request, the page before it has the control disabled. *)
Theorem submit_disables_before_request fault_message network (d : Dom) :
  let w := snd (submit fault_message network d) in
  (exists rest,
      trace w = (preamble ++ Fetch (audit_request (urlInput_value d)) :: rest)%list)
  /\ replay d preamble = busy d
  /\ pages_at_fetch d (trace w) = [busy d]
  /\ (forall before request after,
         trace w = (before ++ Fetch request :: after)%list ->
         submitBtn_disabled (replay d before) = true
         /\ submitBtn_textContent (replay d before) = "Running Audit..."
         /\ resultDiv_innerHTML (replay d before) = "<p>Loading...</p>").
Proof.
  intros w. subst w.
  destruct (submit_trace fault_message network d) as [rest [E Q]].
  assert (P : pages_at_fetch d (trace (snd (submit fault_message network d)))
              = [busy d]).
  { rewrite E. cbn [preamble app pages_at_fetch apply_event].
    now rewrite (pages_at_fetch_quiet rest Q). }
  split; [now exists rest|]. split; [reflexivity|]. split; [exact P|].
  intros before request after Eb.
  pose proof (pages_at_fetch_In before after request d) as I.
  rewrite <- Eb, P in I. destruct I as [<-|[]]. repeat split.
Qed.

Lemma submit_disables_before_request_witness :
  submitBtn_disabled (replay sample_page preamble) = true.
Proof.
  apply (proj2 (proj2 (proj2 (submit_disables_before_request v8_message
                                (answering (success_response sample_data)) sample_page)))
           preamble (audit_request "https://example.com")
           [SetInnerHTML (heading ++ errors_open ++ list_item "E1" ++ list_close
                            ++ warnings_open ++ list_item "W1" ++ list_item "W2"
                            ++ list_close);
            SetDisabled false; SetTextContent "Run Audit"]).
  reflexivity.
Defined.

Lemma audit_request_body (url : string) :
  req_body (audit_request url)
  = Some ("{" ++ quot ++ "url" ++ quot ++ ":"
              ++ quot ++ escape_chars url ++ quot ++ "}").
Proof.
  unfold audit_request, req_body, JSON_stringify, QuoteJSONString.
  cbn [flat_map snd fst app String.concat]. f_equal.
  change (escape_chars "url") with "url".
  now rewrite !append_assoc.
Qed.

Lemma unescape_escape_char (c : ascii) (rest : string) :
  unescape_chars (escape_char c ++ rest)
  = option_map (String c) (unescape_chars rest).
Proof.
  destruct c as [[] [] [] [] [] [] [] []]; reflexivity.
Qed.

(** Reading back what [QuoteJSONString] wrote gives the string again. *)
Lemma unescape_escape_chars (s : string) :
  unescape_chars (escape_chars s) = Some s.
Proof.
  induction s as [|c s IH]; [reflexivity|].
  cbn [escape_chars]. now rewrite unescape_escape_char, IH.
Qed.

Lemma escape_plain_char (c : ascii) :
  plain c = true -> escape_char c = String c EmptyString.
Proof.
  destruct c as [[] [] [] [] [] [] [] []]; try discriminate; reflexivity.
Qed.

Lemma escape_all_plain (s : string) :
  all_plain s = true -> escape_chars s = s.
Proof.
  induction s as [|c s IH]; [reflexivity|].
  cbn [all_plain escape_chars]. intros [Hc Hs]%andb_prop.
  now rewrite (escape_plain_char c Hc), (IH Hs).
Qed.

(** C8.  Each submission issues exactly one request: a POST to the fixed
    endpoint, with the one header [Content-Type: application/json] and,
    as its body, the JSON text of the object whose only property [url] is
    the input's value, whatever that value is.  The value is in the body
    as a string literal that reads back as the value itself, and that is
    the value as it stands when it has no control character, quote or
    backslash. *)
Theorem submit_sends_one_post fault_message network (d : Dom) :
  let url := urlInput_value d in
  filter is_fetch (trace (snd (submit fault_message network d)))
  = [Fetch (audit_request url)]
  /\ req_url (audit_request url) = "https://seoauditai.onrender.com/audit"
  /\ req_method (audit_request url) = "POST"
  /\ req_headers (audit_request url) = [("Content-Type", "application/json")]
  /\ req_body (audit_request url)
     = JSON_stringify (JsObject [("url", JsString url)])
  /\ req_body (audit_request url)
     = Some ("{" ++ quot ++ "url" ++ quot ++ ":"
                 ++ quot ++ escape_chars url ++ quot ++ "}")
  /\ unescape_chars (escape_chars url) = Some url
  /\ (all_plain url = true -> escape_chars url = url).
Proof.
  intros url. subst url.
  destruct (submit_trace fault_message network d) as [rest [E Q]].
  split; [|repeat split].
  - rewrite E. cbn [preamble app filter is_fetch].
    now rewrite (filter_quiet rest Q).
  - apply audit_request_body.
  - apply unescape_escape_chars.
  - apply escape_all_plain.
Qed.

Lemma submit_sends_one_post_witness :
  escape_chars "https://example.com" = "https://example.com".
Proof.
  apply (proj2 (proj2 (proj2 (proj2 (proj2 (proj2
           (submit_sends_one_post v8_message
              (answering (success_response sample_data)) sample_page))))))).
  reflexivity.
Defined.

Lemma includes_banner (text : string) :
  includes text (danger_banner text) = true.
Proof.
  unfold danger_banner. rewrite <- !append_assoc.
  rewrite append_assoc. apply includes_append.
Qed.

Lemma try_block_bad_status fault_message network (url : string) (w : World)
    (r : Response) :
  network (audit_request url) = FetchResolved r ->
  ok r = false ->
  try_block fault_message network url w
  = (Throw (http_error r),
     mkWorld (page w) (trace w ++ [Fetch (audit_request url)])).
Proof.
  intros Hn Hok. unfold try_block, await_fetch, throw.
  cbn [bind Monad_Handler perform apply_event page trace].
  now rewrite Hn, Hok.
Qed.

(** C4.  When the response's status is outside 200..299, the [try] block
    throws an error whose message ends with the status in decimal, and the
    handler completes with the failure banner of that message in the
    result container; the banner contains the status. *)
Theorem submit_bad_status fault_message network (d : Dom) (r : Response) :
  network (audit_request (urlInput_value d)) = FetchResolved r ->
  ~ (200 <= status r <= 299) ->
  let code := string_of_nat (status r) in
  let end_ := submit fault_message network d in
  fst (try_block fault_message network (urlInput_value d)
         (mkWorld (busy d) preamble))
  = Throw (mkError "Error" ("HTTP error! Status: " ++ code))
  /\ fst end_ = Normal tt
  /\ resultDiv_innerHTML (page (snd end_))
     = danger_banner ("HTTP error! Status: " ++ code)
  /\ includes code (resultDiv_innerHTML (page (snd end_))) = true.
Proof.
  intros Hn Hs code end_. subst code end_.
  assert (Hok : ok r = false).
  { unfold ok. destruct (Nat.leb_spec 200 (status r));
      destruct (Nat.leb_spec (status r) 299); try reflexivity. lia. }
  pose proof (submit_after_try fault_message network d) as H. cbv zeta in H.
  rewrite (try_block_bad_status _ _ _ _ r Hn Hok) in *. rewrite H.
  cbn [fst snd page idle resultDiv_innerHTML http_error message].
  repeat split. unfold danger_banner.
  rewrite <- !append_assoc. rewrite append_assoc. apply includes_append.
Qed.

Lemma submit_bad_status_witness :
  resultDiv_innerHTML (page (snd (submit v8_message (failing_with 500) sample_page)))
  = danger_banner "HTTP error! Status: 500"
  /\ includes "500"
       (resultDiv_innerHTML
          (page (snd (submit v8_message (failing_with 500) sample_page)))) = true.
Proof.
  apply (submit_bad_status v8_message (failing_with 500) sample_page
           (mkResponse 500 BodyPending)); [reflexivity | cbn; lia].
Defined.

Lemma try_block_request_failure fault_message network (url : string)
    (w : World) (e : JsError) :
  request_failure (network (audit_request url)) e ->
  try_block fault_message network url w
  = (Throw e, mkWorld (page w) (trace w ++ [Fetch (audit_request url)])).
Proof.
  intros F. unfold try_block, await_fetch, await_json, throw.
  cbn [bind ret Monad_Handler perform apply_event page trace].
  inversion F as [e' E|r Hok E|r e' Hok Hj E]; subst.
  - reflexivity.
  - now rewrite Hok.
  - now rewrite Hok, Hj.
Qed.

(** C6.  Whatever error the [try] block throws, the handler catches it and
    completes: the result container holds the failure banner of the
    error's message, which the banner contains, the control is enabled
    again and carries its idle label.  A rejected [fetch], a status that is
    not a success and a body that is not JSON each make the [try] block
    throw, the last one the parser's error. *)
Theorem submit_shows_thrown_error fault_message network (d : Dom) :
  let try_ := try_block fault_message network (urlInput_value d)
                (mkWorld (busy d) preamble) in
  let request := Fetch (audit_request (urlInput_value d)) in
  (forall e, fst try_ = Throw e ->
             submit fault_message network d
             = (Normal tt,
                mkWorld (idle d (danger_banner (message e)))
                  (preamble
                     ++ [request; SetInnerHTML (danger_banner (message e))]
                     ++ cleanup))
             /\ includes (message e) (danger_banner (message e)) = true)
  /\ (forall e,
         request_failure (network (audit_request (urlInput_value d))) e ->
         fst try_ = Throw e).
Proof.
  intros try_ request. subst try_ request. split.
  - intros e He.
    pose proof (submit_after_try fault_message network d) as H. cbv zeta in H.
    destruct (try_block fault_message network (urlInput_value d)
                (mkWorld (busy d) preamble)) as [c w].
    cbn [fst] in He. subst c. split; [exact H | apply includes_banner].
  - intros e F. now rewrite (try_block_request_failure _ _ _ _ e F).
Qed.

Lemma submit_shows_thrown_error_witness :
  submit v8_message answering_html sample_page
  = (Normal tt,
     mkWorld (idle sample_page (danger_banner (message not_json)))
       (preamble
          ++ [Fetch (audit_request "https://example.com");
              SetInnerHTML (danger_banner (message not_json))]
          ++ cleanup)).
Proof.
  apply (proj1 (submit_shows_thrown_error v8_message answering_html sample_page)
           not_json).
  apply (proj2 (submit_shows_thrown_error v8_message answering_html sample_page)
           not_json).
  apply parse_failure; reflexivity.
Defined.

(** The claim C5 fails where the message is present and empty: line 30
    takes the fallback for every falsy message. *)
Lemma empty_message_shows_fallback :
  let response := error_response EmptyString in
  let shown :=
    resultDiv_innerHTML
      (page (snd (submit v8_message (answering response) sample_page))) in
  Get v8_message response "status" = Ok (JsString "error")
  /\ Get v8_message response "message" = Ok (JsString EmptyString)
  /\ shown = danger_banner "Audit failed"
  /\ shown <> danger_banner EmptyString.
Proof. repeat split. discriminate. Qed.

Lemma render_response_failure fault_message (data status_ message_ : JsValue)
    (w : World) :
  Get fault_message data "status" = Ok status_ ->
  strict_equals status_ "success" = false ->
  Get fault_message data "message" = Ok message_ ->
  render_response fault_message data w
  = (text <- lift (ToString fault_message
                     (if ToBoolean message_ then message_
                      else JsString "Audit failed")) ;;
     perform (SetInnerHTML (danger_banner text))) w.
Proof.
  intros Hs Hne Hm. unfold render_response.
  cbn [bind Monad_Handler]. unfold lift at 1. rewrite Hs, Hne.
  unfold lift at 1. now rewrite Hm.
Qed.

(** C5, amended.  When the parsed response has a [status] other than the
    string [success], the result container is set to a failure banner.
    The banner shows the response's [message] when that is a non-empty
    string, and the fallback [Audit failed] when the message is absent,
    null or the empty string (or falsy otherwise).  Whatever the message
    is, the banner's text is the string conversion of the message, or of
    the fallback when the message is falsy, or else the message of the
    error that this conversion throws. *)
Theorem submit_application_error fault_message network (d : Dom)
    (r : Response) (data status_ message_ : JsValue) :
  network (audit_request (urlInput_value d)) = FetchResolved r ->
  ok r = true ->
  json r = BodyParsed data ->
  Get fault_message data "status" = Ok status_ ->
  strict_equals status_ "success" = false ->
  Get fault_message data "message" = Ok message_ ->
  let shown :=
    resultDiv_innerHTML (page (snd (submit fault_message network d))) in
  (forall text, message_ = JsString text -> text <> EmptyString ->
                shown = danger_banner text /\ includes text shown = true)
  /\ (ToBoolean message_ = false -> shown = danger_banner "Audit failed")
  /\ shown
     = danger_banner
         match ToString fault_message
                 (if ToBoolean message_ then message_
                  else JsString "Audit failed") with
         | Ok text => text
         | Raise e => message e
         end.
Proof.
  intros Hn Hok Hj Hs Hne Hm shown.
  assert (G : shown
              = danger_banner
                  match ToString fault_message
                          (if ToBoolean message_ then message_
                           else JsString "Audit failed") with
                  | Ok text => text
                  | Raise e => message e
                  end).
  { subst shown.
    pose proof (submit_after_try fault_message network d) as H. cbv zeta in H.
    assert (T : try_block fault_message network (urlInput_value d)
                  (mkWorld (busy d) preamble)
                = (text <- lift (ToString fault_message
                                   (if ToBoolean message_ then message_
                                    else JsString "Audit failed")) ;;
                   perform (SetInnerHTML (danger_banner text)))
                    (mkWorld (busy d)
                       (preamble ++ [Fetch (audit_request (urlInput_value d))]))).
    { unfold try_block, await_fetch, await_json.
      cbn [bind ret Monad_Handler perform apply_event page trace].
      rewrite Hn, Hok, Hj. cbn [negb].
      now rewrite (render_response_failure _ _ _ _ _ Hs Hne Hm). }
    rewrite T in H. cbn [bind Monad_Handler] in H. unfold lift in H.
    destruct (ToString fault_message
                (if ToBoolean message_ then message_ else JsString "Audit failed"))
      as [text|e]; cbn [perform] in H; now rewrite H. }
  split; [|split].
  - intros text -> Ht. rewrite G. cbn [ToBoolean].
    destruct (String.eqb_spec text EmptyString); [contradiction|].
    cbn [negb ToString]. split; [reflexivity | apply includes_banner].
  - intros F. rewrite G, F. reflexivity.
  - exact G.
Qed.

Lemma submit_application_error_witness :
  resultDiv_innerHTML
    (page (snd (submit v8_message (answering (error_response "bad url"))
                  sample_page)))
  = danger_banner "bad url"
  /\ includes "bad url"
       (resultDiv_innerHTML
          (page (snd (submit v8_message (answering (error_response "bad url"))
                        sample_page)))) = true.
Proof.
  apply (proj1 (submit_application_error v8_message
                  (answering (error_response "bad url")) sample_page
                  (mkResponse 200 (BodyParsed (error_response "bad url")))
                  (error_response "bad url") (JsString "error")
                  (JsString "bad url")
                  eq_refl eq_refl eq_refl eq_refl eq_refl eq_refl)
           "bad url");
    [reflexivity | discriminate].
Defined.

(** * Further properties *)

(** ** [formatResults] on the schema's fields and off them *)

Lemma render_section_field fault_message (texts : option (list string))
    (opening html : string) :
  render_section fault_message (field_value texts) opening html
  = Ok (html ++ section_markup opening texts).
Proof.
  destruct texts as [[|text texts]|]; cbn [field_value section_markup].
  - cbn. now rewrite append_nil_r.
  - unfold render_section. rewrite nonempty_array.
    cbn [map List.length Nat.eqb negb bind Monad_Result forEach].
    change (JsString text :: map JsString texts)
      with (map JsString (text :: texts)).
    rewrite forEach_strings. cbn [bind Monad_Result].
    now rewrite !append_assoc.
  - cbn. now rewrite append_nil_r.
Qed.

(** X1.  On data whose [errors] and [warnings] are each absent or an
    array of strings, the markup is the heading, the errors section if
    there is an error, the warnings section if there is a warning, and the
    indicator only when both fields are absent: an empty array suppresses
    the indicator without rendering a section. *)
Theorem formatResults_of_fields fault_message (data : JsValue)
    (errors warnings : option (list string)) :
  Get fault_message data "errors" = Ok (field_value errors) ->
  Get fault_message data "warnings" = Ok (field_value warnings) ->
  formatResults fault_message data
  = Ok (heading
          ++ section_markup errors_open errors
          ++ section_markup warnings_open warnings
          ++ match errors, warnings with
             | None, None => no_issues
             | _, _ => EmptyString
             end).
Proof.
  intros He Hw. rewrite formatResults_sections, He, Hw.
  cbn [bind Monad_Result]. rewrite !render_section_field.
  cbn [bind Monad_Result].
  destruct errors, warnings; cbn [field_value ToBoolean negb andb];
    now rewrite ?append_assoc, ?append_nil_r.
Qed.

Lemma formatResults_of_fields_witness :
  formatResults v8_message (JsObject [("warnings", JsArray [JsString "W1"])])
  = Ok (heading ++ warnings_open ++ list_item "W1" ++ list_close).
Proof.
  apply (formatResults_of_fields v8_message
           (JsObject [("warnings", JsArray [JsString "W1"])])
           None (Some ["W1"])); reflexivity.
Defined.

(** X2.  A field that is falsy without being absent ([null], [false],
    [0], the empty string) counts as absent: when both fields are falsy
    the markup is the heading and the indicator. *)
Theorem formatResults_falsy_fields fault_message (data errors warnings : JsValue) :
  Get fault_message data "errors" = Ok errors ->
  Get fault_message data "warnings" = Ok warnings ->
  ToBoolean errors = false ->
  ToBoolean warnings = false ->
  formatResults fault_message data = Ok (heading ++ no_issues).
Proof.
  intros He Hw Fe Fw. unfold formatResults, present_and_nonempty.
  rewrite He, Hw. cbn [bind Monad_Result]. now rewrite Fe, Fw.
Qed.

Lemma formatResults_falsy_fields_witness :
  formatResults v8_message
    (JsObject [("errors", JsNull); ("warnings", JsString EmptyString)])
  = Ok (heading ++ no_issues).
Proof.
  apply (formatResults_falsy_fields v8_message
           (JsObject [("errors", JsNull); ("warnings", JsString EmptyString)])
           JsNull (JsString EmptyString)); reflexivity.
Defined.

(** X3.  Data that is a boolean, a number, a string or an array has no
    [errors] and no [warnings]: it is reported as free of issues. *)
Theorem formatResults_plain_value fault_message (data : JsValue) :
  is_plain_value data = true ->
  formatResults fault_message data = Ok (heading ++ no_issues).
Proof. destruct data; try discriminate; reflexivity. Qed.

Lemma formatResults_plain_value_witness :
  formatResults v8_message (JsString "unavailable") = Ok (heading ++ no_issues).
Proof.
  apply (formatResults_plain_value v8_message (JsString "unavailable")).
  reflexivity.
Defined.

(** X4.  When [errors] is truthy with a truthy [length] and is not an
    array (a non-empty string, say), the loop of line 46 has no [forEach]
    to call: [formatResults] throws and returns no markup at all. *)
Theorem formatResults_field_not_array fault_message (data errors : JsValue) :
  Get fault_message data "errors" = Ok errors ->
  present_and_nonempty fault_message errors = Ok true ->
  is_array errors = false ->
  formatResults fault_message data
  = Raise (TypeError fault_message (NotAFunction errors "forEach")).
Proof.
  intros He Hp Ha. unfold formatResults. rewrite He.
  cbn [bind Monad_Result]. rewrite Hp.
  destruct errors; try discriminate Ha; reflexivity.
Qed.

Lemma formatResults_field_not_array_witness :
  formatResults v8_message
    (JsObject [("errors", JsString "timeout"); ("warnings", JsArray [JsString "W1"])])
  = Raise (TypeError v8_message (NotAFunction (JsString "timeout") "forEach")).
Proof.
  apply (formatResults_field_not_array v8_message
           (JsObject [("errors", JsString "timeout");
                      ("warnings", JsArray [JsString "W1"])])
           (JsString "timeout")); reflexivity.
Defined.

Lemma list_items_In (text : string) (texts : list string) :
  In text texts ->
  exists before after, list_items texts = before ++ list_item text ++ after.
Proof.
  induction texts as [|t texts IH]; [intros []|].
  intros [->|H]; cbn [list_items].
  - now exists EmptyString, (list_items texts).
  - destruct (IH H) as [before [after ->]].
    exists (list_item t ++ before), after. now rewrite append_assoc.
Qed.

Lemma section_markup_In (opening text : string) (texts : option (list string)) :
  In text (entries texts) ->
  exists before after,
    section_markup opening texts = before ++ list_item text ++ after.
Proof.
  destruct texts as [[|t texts]|]; cbn [entries]; [intros [] | | intros []].
  intros H. cbn [section_markup].
  destruct (list_items_In text (t :: texts) H) as [before [after ->]].
  exists (opening ++ before), (after ++ list_close).
  now rewrite !append_assoc.
Qed.

Lemma includes_item (text before after : string) :
  includes text (before ++ list_item text ++ after) = true.
Proof.
  unfold list_item.
  replace (before
           ++ ("<li class=" ++ quot ++ "list-group-item" ++ quot ++ ">"
                 ++ text ++ "</li>") ++ after)
    with ((before ++ "<li class=" ++ quot ++ "list-group-item" ++ quot ++ ">")
            ++ text ++ ("</li>" ++ after)).
  - apply includes_append.
  - now rewrite !append_assoc.
Qed.

(** X5.  Nothing is escaped: every entry of [errors] and of [warnings]
    is in the markup as it is, inside its list item, whatever characters
    it is made of. *)
Theorem formatResults_keeps_entries fault_message (data : JsValue)
    (errors warnings : option (list string)) (text : string) :
  Get fault_message data "errors" = Ok (field_value errors) ->
  Get fault_message data "warnings" = Ok (field_value warnings) ->
  In text (entries errors ++ entries warnings) ->
  exists html,
    formatResults fault_message data = Ok html
    /\ includes (list_item text) html = true
    /\ includes text html = true.
Proof.
  intros He Hw Hin. rewrite formatResults_sections, He, Hw.
  cbn [bind Monad_Result]. rewrite !render_section_field.
  cbn [bind Monad_Result].
  set (tail := if negb (ToBoolean (field_value errors))
                  && negb (ToBoolean (field_value warnings))
               then no_issues else EmptyString).
  exists ((heading ++ section_markup errors_open errors)
            ++ section_markup warnings_open warnings ++ tail).
  split.
  { subst tail.
    destruct (negb (ToBoolean (field_value errors))
              && negb (ToBoolean (field_value warnings)));
      now rewrite ?append_assoc, ?append_nil_r. }
  apply in_app_or in Hin as [Hin|Hin].
  - destruct (section_markup_In errors_open text errors Hin)
      as [before [after ->]].
    replace ((heading ++ before ++ list_item text ++ after)
               ++ section_markup warnings_open warnings ++ tail)
      with ((heading ++ before) ++ list_item text
              ++ (after ++ section_markup warnings_open warnings ++ tail))
      by now rewrite !append_assoc.
    split; [apply includes_append | apply includes_item].
  - destruct (section_markup_In warnings_open text warnings Hin)
      as [before [after ->]].
    replace ((heading ++ section_markup errors_open errors)
               ++ (before ++ list_item text ++ after) ++ tail)
      with (((heading ++ section_markup errors_open errors) ++ before)
              ++ list_item text ++ (after ++ tail))
      by now rewrite !append_assoc.
    split; [apply includes_append | apply includes_item].
Qed.

Lemma formatResults_keeps_entries_witness :
  exists html,
    formatResults v8_message
      (JsObject [("errors", JsArray [JsString "<script>alert(1)</script>"])])
    = Ok html
    /\ includes (list_item "<script>alert(1)</script>") html = true
    /\ includes "<script>alert(1)</script>" html = true.
Proof.
  apply (formatResults_keeps_entries v8_message
           (JsObject [("errors", JsArray [JsString "<script>alert(1)</script>"])])
           (Some ["<script>alert(1)</script>"]) None);
    [reflexivity | reflexivity | now left].
Defined.

Lemma forEach_converted fault_message (items : list JsValue) (texts : list string) :
  Forall2 (fun v text => ToString fault_message v = Ok text) items texts ->
  forall html,
    forEach_items items (append_item fault_message) html
    = Ok (html ++ list_items texts).
Proof.
  induction 1 as [|v text items texts Hv _ IH]; intros html.
  - cbn. now rewrite append_nil_r.
  - cbn [forEach_items append_item bind Monad_Result]. rewrite Hv.
    rewrite IH. cbn [list_items]. now rewrite append_assoc.
Qed.

(** X6.  An entry that is not a string is shown by its string
    conversion: [null] as [null], a number by its digits, a nested array
    joined with commas, an object as [[object Object]]. *)
Theorem formatResults_converts_entries fault_message (data : JsValue)
    (items : list JsValue) (texts : list string)
    (warnings : option (list string)) :
  Get fault_message data "errors" = Ok (JsArray items) ->
  Get fault_message data "warnings" = Ok (field_value warnings) ->
  items <> [] ->
  Forall2 (fun v text => ToString fault_message v = Ok text) items texts ->
  formatResults fault_message data
  = Ok (heading ++ errors_open ++ list_items texts ++ list_close
          ++ section_markup warnings_open warnings).
Proof.
  intros He Hw Hne Ht. rewrite formatResults_sections, He, Hw.
  cbn [bind Monad_Result]. unfold render_section at 1.
  rewrite nonempty_array.
  destruct items as [|v items]; [contradiction|].
  cbn [List.length Nat.eqb negb bind Monad_Result forEach].
  rewrite (forEach_converted _ _ _ Ht). cbn [bind Monad_Result].
  rewrite render_section_field. cbn [bind Monad_Result ToBoolean negb andb].
  now rewrite !append_assoc.
Qed.

Lemma formatResults_converts_entries_witness :
  formatResults v8_message (JsObject [("errors", JsArray mixed_entries)])
  = Ok (heading ++ errors_open
          ++ list_item "null" ++ list_item "3" ++ list_item "a,,true"
          ++ list_item "[object Object]" ++ list_close).
Proof.
  apply (formatResults_converts_entries v8_message
           (JsObject [("errors", JsArray mixed_entries)]) mixed_entries
           ["null"; "3"; "a,,true"; "[object Object]"] None);
    [reflexivity | reflexivity | discriminate |].
  repeat constructor.
Defined.

(** ** The handler on each kind of response *)

Lemma submit_pending_stays_busy_witness :
  submit v8_message never_answering sample_page
  = (Suspended,
     mkWorld (busy sample_page)
       (preamble ++ [Fetch (audit_request "https://example.com")])).
Proof.
  apply (submit_pending_stays_busy v8_message never_answering sample_page).
  reflexivity.
Defined.

(** X8.  No error escapes the listener: whatever the service does and
    whatever the response holds, the handler completes or stays suspended,
    it never ends with a thrown error. *)
Theorem submit_never_throws fault_message network (d : Dom) (e : JsError) :
  fst (submit fault_message network d) <> Throw e.
Proof.
  pose proof (submit_after_try fault_message network d) as H. cbv zeta in H.
  destruct (try_block fault_message network (urlInput_value d)
              (mkWorld (busy d) preamble)) as [[[]|e'|] w];
    rewrite H; discriminate.
Qed.

Lemma try_block_parsed fault_message network (url : string) (w : World)
    (r : Response) (response : JsValue) :
  network (audit_request url) = FetchResolved r ->
  ok r = true ->
  json r = BodyParsed response ->
  try_block fault_message network url w
  = render_response fault_message response
      (mkWorld (page w) (trace w ++ [Fetch (audit_request url)])).
Proof.
  intros Hn Hok Hj. unfold try_block, await_fetch, await_json.
  cbn [bind ret Monad_Handler perform apply_event page trace].
  now rewrite Hn, Hok, Hj.
Qed.

Lemma render_response_success fault_message (response status_ data : JsValue)
    (w : World) :
  Get fault_message response "status" = Ok status_ ->
  strict_equals status_ "success" = true ->
  Get fault_message response "data" = Ok data ->
  render_response fault_message response w
  = (html <- lift (formatResults fault_message data) ;;
     perform (SetInnerHTML html)) w.
Proof.
  intros Hs He Hd. unfold render_response.
  cbn [bind Monad_Handler]. unfold lift at 1. rewrite Hs, He.
  unfold lift at 1. now rewrite Hd.
Qed.

(** X9.  When the response has a success status and its body parses to
    an object whose [status] is the string [success], the handler completes
    with the markup of [formatResults] on the object's [data] in the result
    container, written once, between the request and the cleanup. *)
Theorem submit_success_renders fault_message network (d : Dom)
    (r : Response) (response status_ data : JsValue) (html : string) :
  network (audit_request (urlInput_value d)) = FetchResolved r ->
  ok r = true ->
  json r = BodyParsed response ->
  Get fault_message response "status" = Ok status_ ->
  strict_equals status_ "success" = true ->
  Get fault_message response "data" = Ok data ->
  formatResults fault_message data = Ok html ->
  submit fault_message network d
  = (Normal tt,
     mkWorld (idle d html)
       (preamble
          ++ [Fetch (audit_request (urlInput_value d)); SetInnerHTML html]
          ++ cleanup)).
Proof.
  intros Hn Hok Hj Hs He Hd Hf.
  pose proof (submit_after_try fault_message network d) as H. cbv zeta in H.
  rewrite (try_block_parsed _ _ _ _ _ _ Hn Hok Hj) in H.
  rewrite (render_response_success _ _ _ _ _ Hs He Hd) in H.
  cbn [bind Monad_Handler] in H. unfold lift in H. rewrite Hf in H.
  cbn [perform] in H. exact H.
Qed.

Lemma submit_success_renders_witness :
  submit v8_message (answering (success_response sample_data)) sample_page
  = (Normal tt,
     mkWorld
       (idle sample_page
          (heading ++ errors_open ++ list_item "E1" ++ list_close
             ++ warnings_open ++ list_item "W1" ++ list_item "W2" ++ list_close))
       (preamble
          ++ [Fetch (audit_request "https://example.com");
              SetInnerHTML
                (heading ++ errors_open ++ list_item "E1" ++ list_close
                   ++ warnings_open ++ list_item "W1" ++ list_item "W2"
                   ++ list_close)]
          ++ cleanup)).
Proof.
  apply (submit_success_renders v8_message
           (answering (success_response sample_data)) sample_page
           (mkResponse 200 (BodyParsed (success_response sample_data)))
           (success_response sample_data) (JsString "success") sample_data);
    reflexivity.
Defined.

(** X10.  A success response without [data] (or with [data: null]) is
    not rendered as free of issues: reading [errors] of it throws, and the
    result container ends with the failure banner of the engine's message
    for that fault. *)
Theorem submit_success_without_data fault_message network (d : Dom)
    (r : Response) (response status_ data : JsValue) :
  network (audit_request (urlInput_value d)) = FetchResolved r ->
  ok r = true ->
  json r = BodyParsed response ->
  Get fault_message response "status" = Ok status_ ->
  strict_equals status_ "success" = true ->
  Get fault_message response "data" = Ok data ->
  is_nullish data = true ->
  submit fault_message network d
  = (Normal tt,
     mkWorld
       (idle d (danger_banner (fault_message (ReadOfNullish data "errors"))))
       (preamble
          ++ [Fetch (audit_request (urlInput_value d));
              SetInnerHTML
                (danger_banner (fault_message (ReadOfNullish data "errors")))]
          ++ cleanup)).
Proof.
  intros Hn Hok Hj Hs He Hd Hnull.
  pose proof (submit_after_try fault_message network d) as H. cbv zeta in H.
  rewrite (try_block_parsed _ _ _ _ _ _ Hn Hok Hj) in H.
  rewrite (render_response_success _ _ _ _ _ Hs He Hd) in H.
  cbn [bind Monad_Handler] in H. unfold lift in H.
  destruct data; try discriminate Hnull; exact H.
Qed.

Lemma submit_success_without_data_witness :
  resultDiv_innerHTML
    (page (snd (submit v8_message
                  (answering (JsObject [("status", JsString "success")]))
                  sample_page)))
  = danger_banner "Cannot read properties of undefined (reading 'errors')".
Proof.
  rewrite (submit_success_without_data v8_message
             (answering (JsObject [("status", JsString "success")])) sample_page
             (mkResponse 200 (BodyParsed (JsObject [("status", JsString "success")])))
             (JsObject [("status", JsString "success")])
             (JsString "success") JsUndefined
             eq_refl eq_refl eq_refl eq_refl eq_refl eq_refl eq_refl).
  reflexivity.
Defined.

(** X11.  A body that parses to [null] has no [status] to read: line 27
    throws, and the result container ends with the failure banner of the
    engine's message for that fault, neither the response's message nor
    the fallback. *)
Theorem submit_null_response fault_message network (d : Dom)
    (r : Response) (response : JsValue) :
  network (audit_request (urlInput_value d)) = FetchResolved r ->
  ok r = true ->
  json r = BodyParsed response ->
  is_nullish response = true ->
  submit fault_message network d
  = (Normal tt,
     mkWorld
       (idle d (danger_banner (fault_message (ReadOfNullish response "status"))))
       (preamble
          ++ [Fetch (audit_request (urlInput_value d));
              SetInnerHTML
                (danger_banner
                   (fault_message (ReadOfNullish response "status")))]
          ++ cleanup)).
Proof.
  intros Hn Hok Hj Hnull.
  pose proof (submit_after_try fault_message network d) as H. cbv zeta in H.
  rewrite (try_block_parsed _ _ _ _ _ _ Hn Hok Hj) in H.
  destruct response; try discriminate Hnull; exact H.
Qed.

Lemma submit_null_response_witness :
  resultDiv_innerHTML
    (page (snd (submit v8_message (answering JsNull) sample_page)))
  = danger_banner "Cannot read properties of null (reading 'status')".
Proof.
  rewrite (submit_null_response v8_message (answering JsNull) sample_page
             (mkResponse 200 (BodyParsed JsNull)) JsNull
             eq_refl eq_refl eq_refl eq_refl).
  reflexivity.
Defined.


Lemma formatResults_starts fault_message (data : JsValue) (html : string) :
  formatResults fault_message data = Ok html ->
  String.prefix heading html = true.
Proof.
  rewrite formatResults_sections.
  destruct (Get fault_message data "errors") as [errors|e]; [|discriminate].
  cbn [bind Monad_Result].
  destruct (render_section fault_message errors errors_open heading)
    as [html1|e] eqn:E1; [|discriminate].
  destruct (Get fault_message data "warnings") as [warnings|e]; [|discriminate].
  destruct (render_section fault_message warnings warnings_open html1)
    as [html2|e] eqn:E2; [|discriminate].
  apply render_section_extends in E1 as [rest1 ->].
  apply render_section_extends in E2 as [rest2 ->].
  destruct (negb (ToBoolean errors) && negb (ToBoolean warnings));
    intros [= <-]; rewrite ?append_assoc; apply (prefix_append heading).
Qed.

(** What the rendering of a response can put in the result container:
    results, which start with the heading, or a failure banner. *)
Lemma render_response_markup fault_message (response : JsValue)
    (w w' : World) (a : unit) :
  render_response fault_message response w = (Normal a, w') ->
  exists html,
    w' = mkWorld (apply_event (page w) (SetInnerHTML html))
                 (trace w ++ [SetInnerHTML html])
    /\ (String.prefix heading html = true
        \/ exists text, html = danger_banner text).
Proof.
  unfold render_response. cbn [bind Monad_Handler]. unfold lift at 1.
  destruct (Get fault_message response "status") as [status_|e]; [|discriminate].
  destruct (strict_equals status_ "success").
  - unfold lift at 1.
    destruct (Get fault_message response "data") as [data|e]; [|discriminate].
    unfold lift.
    destruct (formatResults fault_message data) as [html|e] eqn:F;
      [|discriminate].
    cbn [perform]. intros [= _ <-]. exists html. split; [reflexivity|].
    left. now apply formatResults_starts in F.
  - unfold lift at 1.
    destruct (Get fault_message response "message") as [message_|e];
      [|discriminate].
    unfold lift.
    destruct (ToString fault_message
                (if ToBoolean message_ then message_ else JsString "Audit failed"))
      as [text|e]; [|discriminate].
    cbn [perform]. intros [= _ <-]. exists (danger_banner text).
    split; [reflexivity|]. right. now exists text.
Qed.

Lemma banner_is_not_placeholder (text : string) :
  danger_banner text <> "<p>Loading...</p>".
Proof. discriminate. Qed.

(** X13.  A submission whose promises settle performs eight effects and
    no other: the four before the request, the request, one write of the
    result container, and the two of the cleanup.  That one write is
    either results, which start with the heading, or a failure banner:
    the loading placeholder never stays. *)
Theorem submit_completed_shape fault_message network (d : Dom) :
  settles (network (audit_request (urlInput_value d))) = true ->
  exists html,
    submit fault_message network d
    = (Normal tt,
       mkWorld (idle d html)
         (preamble
            ++ [Fetch (audit_request (urlInput_value d)); SetInnerHTML html]
            ++ cleanup))
    /\ (String.prefix heading html = true \/ exists text, html = danger_banner text)
    /\ html <> "<p>Loading...</p>".
Proof.
  intros Hs.
  pose proof (submit_after_try fault_message network d) as H. cbv zeta in H.
  assert (K : forall html,
             String.prefix heading html = true
             \/ (exists text, html = danger_banner text) ->
             html <> "<p>Loading...</p>").
  { intros html [P|[text ->]]; [|apply banner_is_not_placeholder].
    intros ->. discriminate P. }
  destruct (try_block_cases fault_message network (urlInput_value d)
              (mkWorld (busy d) preamble))
    as [[Hn _]|[[_ [e E]]|[_ [html E]]]].
  - rewrite Hs in Hn. discriminate Hn.
  - rewrite E in H. exists (danger_banner (message e)).
    split; [exact H|]. split; [right; now exists (message e)|].
    apply banner_is_not_placeholder.
  - rewrite E in H. exists html. split; [exact H|].
    assert (F : String.prefix heading html = true
                \/ exists text, html = danger_banner text).
    { revert E. unfold try_block, await_fetch, await_json, throw.
      cbn [bind ret Monad_Handler perform apply_event page trace].
      destruct (network (audit_request (urlInput_value d))) as [|e|r];
        try discriminate.
      destruct (ok r); cbn [negb]; try discriminate.
      destruct (json r) as [|e|response]; try discriminate.
      intros E. apply render_response_markup in E as [html' [E F]].
      apply (f_equal (fun w => resultDiv_innerHTML (page w))) in E.
      cbn in E. now subst html'. }
    split; [exact F | exact (K html F)].
Qed.

Lemma submit_completed_shape_witness :
  exists html,
    submit v8_message (failing_with 404) sample_page
    = (Normal tt,
       mkWorld (idle sample_page html)
         (preamble
            ++ [Fetch (audit_request (urlInput_value sample_page));
                SetInnerHTML html]
            ++ cleanup))
    /\ (String.prefix heading html = true \/ exists text, html = danger_banner text)
    /\ html <> "<p>Loading...</p>".
Proof.
  apply (submit_completed_shape v8_message (failing_with 404) sample_page).
  reflexivity.
Defined.

Lemma submit_depends_on_input fault_message network (d d' : Dom) :
  urlInput_value d = urlInput_value d' ->
  submit fault_message network d = submit fault_message network d'.
Proof.
  intros E. rewrite !submit_unfold. unfold busy. now rewrite E.
Qed.

(** X14.  Nothing of an earlier submission leaks into the next one:
    submitting again from the page a submission has left, against the same
    service, ends in the same way, with the same page and the same
    effects. *)
Theorem resubmit_same fault_message network (d : Dom) :
  submit fault_message network (page (snd (submit fault_message network d)))
  = submit fault_message network d.
Proof.
  apply submit_depends_on_input.
  pose proof (submit_after_try fault_message network d) as H. cbv zeta in H.
  destruct (try_block fault_message network (urlInput_value d)
              (mkWorld (busy d) preamble)) as [[[]|e'|] w];
    rewrite H; reflexivity.
Qed.

(** ** The request body *)

Lemma append_length (a b : string) :
  String.length (a ++ b) = String.length a + String.length b.
Proof. induction a as [|c a IH]; cbn; [reflexivity | now rewrite IH]. Qed.

Lemma append_cancel_r (a b s : string) : a ++ s = b ++ s -> a = b.
Proof.
  revert b. induction a as [|c a IH]; intros [|c' b] H; cbn in H.
  - reflexivity.
  - apply (f_equal String.length) in H. cbn in H.
    rewrite append_length in H. lia.
  - apply (f_equal String.length) in H. cbn in H.
    rewrite append_length in H. lia.
  - injection H as -> H. f_equal. now apply IH.
Qed.

Lemma escape_chars_injective (s s' : string) :
  escape_chars s = escape_chars s' -> s = s'.
Proof.
  intros E. apply (f_equal unescape_chars) in E.
  rewrite !unescape_escape_chars in E. now injection E.
Qed.

(** X15.  The request carries the input's value whole: two
    submissions send the same request only if their inputs hold the same
    value, character for character.  Nothing is trimmed, normalised or
    cut off on the way into the body. *)
Theorem audit_request_injective (url url' : string) :
  audit_request url = audit_request url' -> url = url'.
Proof.
  intros E. apply (f_equal req_body) in E.
  rewrite !audit_request_body in E. injection E as E.
  apply escape_chars_injective.
  apply (append_cancel_r _ _ (quot ++ "}")). exact E.
Qed.

Lemma audit_request_injective_witness :
  urlInput_value sample_page = "https://example.com".
Proof.
  apply (audit_request_injective (urlInput_value sample_page)
           "https://example.com").
  reflexivity.
Defined.

(** ** An entry that cannot be converted *)

Lemma forEach_entry_fails fault_message (before after : list JsValue)
    (v : JsValue) (texts : list string) (e : JsError) :
  Forall2 (fun v text => ToString fault_message v = Ok text) before texts ->
  ToString fault_message v = Raise e ->
  forall html,
    forEach_items (before ++ v :: after) (append_item fault_message) html
    = Raise e.
Proof.
  intros Hb Hv. induction Hb as [|x text before texts Hx _ IH]; intros html.
  - cbn [app forEach_items append_item bind Monad_Result]. now rewrite Hv.
  - cbn [app forEach_items append_item bind Monad_Result]. rewrite Hx.
    apply IH.
Qed.

(** X16.  The first entry of [errors] that has no string conversion (an
    object with a property [toString] of its own) makes [formatResults]
    throw that conversion's error: the entries before it are dropped with
    it, and no markup is returned. *)
Theorem formatResults_entry_fails fault_message (data : JsValue)
    (before after : list JsValue) (v : JsValue) (texts : list string)
    (e : JsError) :
  Get fault_message data "errors" = Ok (JsArray (before ++ v :: after)) ->
  Forall2 (fun v text => ToString fault_message v = Ok text) before texts ->
  ToString fault_message v = Raise e ->
  formatResults fault_message data = Raise e.
Proof.
  intros He Hb Hv. rewrite formatResults_sections, He.
  cbn [bind Monad_Result]. unfold render_section. rewrite nonempty_array.
  assert (L : (List.length (before ++ v :: after) =? 0)%nat = false).
  { rewrite length_app. cbn [List.length].
    destruct (Nat.eqb_spec (List.length before + S (List.length after)) 0);
      [lia | reflexivity]. }
  rewrite L. cbn [negb bind Monad_Result forEach].
  now rewrite (forEach_entry_fails _ _ _ _ _ _ Hb Hv).
Qed.

Lemma formatResults_entry_fails_witness :
  formatResults v8_message
    (JsObject [("errors",
                JsArray [JsString "E1"; JsObject [("toString", JsNumber "1")]])])
  = Raise (TypeError v8_message
             (NoPrimitive (JsObject [("toString", JsNumber "1")]))).
Proof.
  apply (formatResults_entry_fails v8_message
           (JsObject [("errors",
                       JsArray [JsString "E1";
                                JsObject [("toString", JsNumber "1")]])])
           [JsString "E1"] [] (JsObject [("toString", JsNumber "1")]) ["E1"]);
    [reflexivity | repeat constructor | reflexivity].
Defined.
